(** * maas-report: classification and report of MaaS machines

    A shallow embedding of [maas-report.py].  Python [str] values are
    modelled as [string], one character per code point below 256, lists as
    [list], optional attributes ([None] or a value) as [option].  The
    program's output is kept as the sequence of [print] calls, each tagged
    with the stream it writes to. *)

From Stdlib Require Import String Ascii List Bool Arith NArith Lia.
From Stdlib Require Import Sorting.Sorted Sorting.Permutation DecimalString.
Import ListNotations.
Local Open Scope string_scope.

(** ** Python string operations *)

Module PyStr.

(** [str.lower] on one code point below 256: the ASCII capitals and the
    Latin-1 capitals U+00C0..U+00DE, the multiplication sign U+00D7
    excepted, move up by 32; everything else is unchanged. *)
Definition lower_char (c : ascii) : ascii :=
  let n := N_of_ascii c in
  if ((65 <=? n) && (n <=? 90))%N then ascii_of_N (n + 32)
  else if ((192 <=? n) && (n <=? 222) && negb (n =? 215))%N
       then ascii_of_N (n + 32)
  else c.

(** [s.lower()] *)
Fixpoint lower (s : string) : string :=
  match s with
  | EmptyString => EmptyString
  | String c t => String (lower_char c) (lower t)
  end.

(** [s.startswith(p)], the test behind both [in] and the anchored match. *)
Fixpoint startswith (p s : string) : bool :=
  match p, s with
  | EmptyString, _ => true
  | String _ _, EmptyString => false
  | String a p', String b s' => Ascii.eqb a b && startswith p' s'
  end.

(** [sub in s] on strings: [sub] occurs at some offset of [s]. *)
Fixpoint contains (sub s : string) : bool :=
  startswith sub s ||
  match s with
  | EmptyString => false
  | String _ t => contains sub t
  end.

(** [x in l] on a list of strings. *)
Definition mem (x : string) (l : list string) : bool :=
  existsb (String.eqb x) l.

(** [c * n] for a one-character string [c]. *)
Fixpoint repeat_char (c : ascii) (n : nat) : string :=
  match n with
  | O => EmptyString
  | S k => String c (repeat_char c k)
  end.

(** The format specification [:<w] applied to a string: left-aligned,
    filled with spaces on the right up to the minimum width [w]. *)
Definition ljust (w : nat) (s : string) : string :=
  s ++ repeat_char " " (w - String.length s).

(** [str(n)] for a non-negative integer. *)
Definition str_of_nat (n : nat) : string :=
  NilZero.string_of_uint (Nat.to_uint n).

End PyStr.

(** ** The fragment of [re] used by the report *)

Module Re.

(** Pattern items: [^], a literal character, and [.*]. *)
Inductive item : Type :=
  | Bol
  | Lit (c : ascii)
  | DotStar.

(** Literal comparison; under [re.IGNORECASE] both sides are lowered. *)
Definition char_matches (ignorecase : bool) (c x : ascii) : bool :=
  if ignorecase
  then Ascii.eqb (PyStr.lower_char c) (PyStr.lower_char x)
  else Ascii.eqb c x.

(** The character classes of [.] without [re.DOTALL]: anything but a
    line feed. *)
Definition dot_matches (x : ascii) : bool :=
  negb (Ascii.eqb x "010"%char).

(** Backtracking matcher.  [pos] is the offset of [s] in the subject;
    the result is the offset at which the match ends.  [.*] is greedy:
    the longest run is tried first. *)
Fixpoint run (ignorecase : bool) (p : list item) : nat -> string -> option nat :=
  match p with
  | [] => fun pos _ => Some pos
  | Bol :: p' => fun pos s =>
      match pos with
      | O => run ignorecase p' pos s
      | S _ => None
      end
  | Lit c :: p' => fun pos s =>
      match s with
      | EmptyString => None
      | String x t =>
          if char_matches ignorecase c x
          then run ignorecase p' (S pos) t
          else None
      end
  | DotStar :: p' =>
      fix star (pos : nat) (s : string) {struct s} : option nat :=
        match s with
        | EmptyString => run ignorecase p' pos s
        | String x t =>
            if dot_matches x
            then match star (S pos) t with
                 | Some e => Some e
                 | None => run ignorecase p' pos s
                 end
            else run ignorecase p' pos s
        end
  end.

(** [pattern.match(s)]: a match object (here its end offset) or [None]. *)
Definition pmatch (ignorecase : bool) (p : list item) (s : string) : option nat :=
  run ignorecase p 0 s.

(** Truth value of the result of [pattern.match]. *)
Definition truthy (r : option nat) : bool :=
  match r with Some _ => true | None => false end.

End Re.

(** ** Data model *)

(** The owner of a machine, as far as the report reads it. *)
Record user : Type := mkUser { username : string }.

(** A machine record with the attributes [generate_report] reads. *)
Record machine : Type := mkMachine {
  hostname : string;
  system_id : string;
  status_name : string;
  status_message : option string;
  tags : list string;
  owner : option user
}.

(** The three lists built by the classification loop. *)
Record categories : Type := mkCategories {
  available_servers : list machine;
  potential_issue_servers : list machine;
  failed_servers : list machine
}.

(** ** Classification *)

(** [re.compile(r'^DCOPS-.*', re.IGNORECASE)] *)
Definition dcops_pattern : list Re.item :=
  [Re.Bol; Re.Lit "D"; Re.Lit "C"; Re.Lit "O"; Re.Lit "P"; Re.Lit "S";
   Re.Lit "-"; Re.DotStar].

Definition dcops_match (tag : string) : bool :=
  Re.truthy (Re.pmatch true dcops_pattern tag).

(** The first test of the loop body. *)
Definition is_failed_status (m : machine) : bool :=
  PyStr.contains "failed" (PyStr.lower (status_name m)) ||
  PyStr.contains "broken" (PyStr.lower (status_name m)).

(** One iteration of [for machine in machines]. *)
Definition classify_step (st : categories) (m : machine) : categories :=
  if is_failed_status m then
    mkCategories (available_servers st) (potential_issue_servers st)
                 (failed_servers st ++ [m])
  else if String.eqb (status_name m) "Ready" then
    let machine_tags_lower := map PyStr.lower (tags m) in
    let st1 :=
      if PyStr.mem "available" machine_tags_lower
      then mkCategories (available_servers st ++ [m])
                        (potential_issue_servers st) (failed_servers st)
      else st in
    if existsb dcops_match (tags m)
    then mkCategories (available_servers st1)
                      (potential_issue_servers st1 ++ [m]) (failed_servers st1)
    else st1
  else st.

Definition no_categories : categories := mkCategories [] [] [].

(** The whole loop. *)
Definition classify (machines : list machine) : categories :=
  fold_left classify_step machines no_categories.

(** ** Rendering *)

Module PyRepr.

Definition hex_digit (n : N) : ascii :=
  if (n <? 10)%N then ascii_of_N (48 + n) else ascii_of_N (87 + n).

(** [str.isprintable] on one code point below 256. *)
Definition printable (c : ascii) : bool :=
  let n := N_of_ascii c in
  ((32 <=? n) && (n <? 127) || (161 <=? n) && negb (n =? 173))%N.

Definition backslash : ascii := "092"%char.
Definition single_quote : ascii := "039"%char.
Definition double_quote : ascii := "034"%char.

Definition char_str (c : ascii) : string := String c EmptyString.

(** The escape of one character inside a literal delimited by [quote]. *)
Definition escape_char (quote c : ascii) : string :=
  let n := N_of_ascii c in
  if Ascii.eqb c quote || Ascii.eqb c backslash
  then String backslash (char_str c)
  else if (n =? 9)%N then String backslash "t"
  else if (n =? 10)%N then String backslash "n"
  else if (n =? 13)%N then String backslash "r"
  else if printable c then char_str c
  else String backslash (String "x"%char
         (String (hex_digit (n / 16)) (char_str (hex_digit (n mod 16))))).

Fixpoint escape (quote : ascii) (s : string) : string :=
  match s with
  | EmptyString => EmptyString
  | String c t => escape_char quote c ++ escape quote t
  end.

Fixpoint has_char (c : ascii) (s : string) : bool :=
  match s with
  | EmptyString => false
  | String x t => Ascii.eqb c x || has_char c t
  end.

(** Double quotes are chosen only when the text has a single quote and
    no double quote. *)
Definition quote_for (s : string) : ascii :=
  if has_char single_quote s && negb (has_char double_quote s)
  then double_quote else single_quote.

(** [repr(s)] for a string. *)
Definition repr_str (s : string) : string :=
  let q := quote_for s in
  String q (escape q s ++ char_str q).

(** [repr(l)] for a list of strings, which is also what [{m.tags}]
    formats to. *)
Definition repr_list (l : list string) : string :=
  "[" ++ String.concat ", " (map repr_str l) ++ "]".

End PyRepr.

(** [m.owner.username if m.owner else "Unassigned"] *)
Definition owner_name (m : machine) : string :=
  match owner m with
  | Some u => username u
  | None => "Unassigned"
  end.

(** The line printed for a machine of sections A and B. *)
Definition server_line (m : machine) : string :=
  "  - Host: " ++ PyStr.ljust 25 (hostname m) ++
  " System ID: " ++ PyStr.ljust 12 (system_id m) ++
  " Owner: " ++ PyStr.ljust 15 (owner_name m) ++
  " Tags: " ++ PyRepr.repr_list (tags m).

(** The conditional expression that builds [status_msg]: the message is
    tested for truth, and both [None] and the empty string are false. *)
Definition status_msg (m : machine) : string :=
  match status_message m with
  | None => EmptyString
  | Some EmptyString => EmptyString
  | Some s => "Message: " ++ s
  end.

(** The line printed for a machine of section C. *)
Definition failed_line (m : machine) : string :=
  "  - Host: " ++ PyStr.ljust 25 (hostname m) ++
  " System ID: " ++ PyStr.ljust 12 (system_id m) ++
  " Status: " ++ PyStr.ljust 20 (status_name m) ++
  " " ++ status_msg m.

(** ** Sorting *)

(** [sorted(l, key=lambda x: x.hostname)].  Python's sort is stable and
    compares keys by code point; it is modelled by a stable insertion sort
    that puts an element in front of the first one whose hostname is not
    smaller. *)
Fixpoint insert_by_hostname (m : machine) (l : list machine) : list machine :=
  match l with
  | [] => [m]
  | x :: t =>
      if String.leb (hostname m) (hostname x)
      then m :: x :: t
      else x :: insert_by_hostname m t
  end.

Fixpoint sorted_by_hostname (l : list machine) : list machine :=
  match l with
  | [] => []
  | m :: t => insert_by_hostname m (sorted_by_hostname t)
  end.

(** ** Effects: output streams, network calls, exceptions, exit *)

(** Calls made on the MaaS client library. *)
Inductive net_call : Type :=
  | CallConnect (url api_key : string)
  | CallUsersList
  | CallMachinesList.

(** What a run does, in order.  [Stdout s] and [Stderr s] stand for one
    [print] of [s] (the line end is implied). *)
Inductive event : Type :=
  | Stdout (s : string)
  | Stderr (s : string)
  | Net (c : net_call).

(** An instance of [Exception], known by its [str]. *)
Record exn : Type := mkExn { exn_str : string }.

Inductive outcome (A : Type) : Type :=
  | Returned (a : A)
  | Raised (e : exn)
  | Exited (code : nat).
Arguments Returned {A} a.
Arguments Raised {A} e.
Arguments Exited {A} code.

(** A computation: the events it emitted and how it ended. *)
Definition prog (A : Type) : Type := (list event * outcome A)%type.

Definition ret {A} (a : A) : prog A := ([], Returned a).

Definition bind {A B} (c : prog A) (f : A -> prog B) : prog B :=
  match c with
  | (t, Returned a) => let (t', o) := f a in ((t ++ t')%list, o)
  | (t, Raised e) => (t, Raised e)
  | (t, Exited code) => (t, Exited code)
  end.

Notation "x <- c ;; k" := (bind c (fun x => k))
  (at level 61, c at next level, right associativity).
Notation "c ;;; k" := (bind c (fun _ => k))
  (at level 61, right associativity).

(** [try: body except Exception as e: handler e] *)
Definition try_except {A} (body : prog A) (handler : exn -> prog A) : prog A :=
  match body with
  | (t, Raised e) => let (t', o) := handler e in ((t ++ t')%list, o)
  | other => other
  end.

Definition print (s : string) : prog unit := ([Stdout s], Returned tt).
Definition print_err (s : string) : prog unit := ([Stderr s], Returned tt).
Definition sys_exit {A} (code : nat) : prog A := ([], Exited code).

(** A call on the client library, with the result it gives. *)
Definition net {A} (c : net_call) (result : exn + A) : prog A :=
  ([Net c], match result with inl e => Raised e | inr a => Returned a end).

(** The client object: what its two list calls answer. *)
Record client : Type := mkClient {
  users_list : exn + unit;
  machines_list : exn + list machine
}.

(** The environment of a run: the two variables read at import time and
    the behaviour of [maas.client.connect]. *)
Record world : Type := mkWorld {
  MAAS_API_URL : option string;
  MAAS_API_KEY : option string;
  connect : string -> string -> exn + client
}.

(** ** The report *)

Definition newline : string := String "010"%char EmptyString.

Definition rule (n : nat) : string := PyStr.repeat_char "=" n.

Fixpoint print_all (lines : list string) : prog unit :=
  match lines with
  | [] => ret tt
  | l :: t => print l ;;; print_all t
  end.

(** The entries each section iterates over. *)
Definition available_entries (machines : list machine) : list machine :=
  sorted_by_hostname (available_servers (classify machines)).
Definition potential_issue_entries (machines : list machine) : list machine :=
  sorted_by_hostname (potential_issue_servers (classify machines)).
Definition failed_entries (machines : list machine) : list machine :=
  sorted_by_hostname (failed_servers (classify machines)).

Definition none_available : string :=
  "  No machines in 'Ready' state found with the 'available' tag.".
Definition none_potential_issue : string :=
  "  No machines in 'Ready' state found with a 'DCOPS-*' tag.".
Definition none_failed : string :=
  "  No machines found in a failed or broken state.".

(** [if servers: for m in sorted(servers, ...): print(line m)
     else: print(none_found)].  A list is true when it is not empty. *)
Definition print_section (servers : list machine) (line : machine -> string)
    (none_found : string) : prog unit :=
  match servers with
  | [] => print none_found
  | _ :: _ => print_all (map line (sorted_by_hostname servers))
  end.

Definition generate_report (machines : list machine) : prog unit :=
  let st := classify machines in
  print (newline ++ rule 60) ;;;
  print "        MaaS Machine Status Report" ;;;
  print (rule 60 ++ newline) ;;;
  print (rule 30) ;;;
  print "(servers available)" ;;;
  print (rule 30) ;;;
  print_section (available_servers st) server_line none_available ;;;
  print newline ;;;
  print (rule 30) ;;;
  print "(servers with potential issues)" ;;;
  print (rule 30) ;;;
  print_section (potential_issue_servers st) server_line none_potential_issue ;;;
  print newline ;;;
  print (rule 40) ;;;
  print "(Machines in any kind of failed state)" ;;;
  print (rule 40) ;;;
  print_section (failed_servers st) failed_line none_failed ;;;
  print newline.

(** ** Connection and main *)

(** [not x] for an optional string: [None] and the empty string. *)
Definition falsy (x : option string) : bool :=
  match x with
  | None => true
  | Some EmptyString => true
  | Some _ => false
  end.

(** The text an optional string formats to inside an f-string. *)
Definition fmt_opt (x : option string) : string :=
  match x with
  | None => "None"
  | Some s => s
  end.

Definition get_maas_client (w : world) (url api_key : option string) : prog client :=
  if falsy url || falsy api_key then
    print_err "Error: MAAS_API_URL and MAAS_API_KEY environment variables must be set." ;;;
    sys_exit 1
  else
    try_except
      (print ("--> Connecting to MaaS at " ++ fmt_opt url ++ "...") ;;;
       c <- net (CallConnect (fmt_opt url) (fmt_opt api_key))
                (connect w (fmt_opt url) (fmt_opt api_key)) ;;
       net CallUsersList (users_list c) ;;;
       print "--> Successfully connected to MaaS." ;;;
       ret c)
      (fun e =>
         print_err ("Error connecting to MaaS: " ++ exn_str e) ;;;
         sys_exit 1).

Definition main (w : world) : prog unit :=
  maas_client <- get_maas_client w (MAAS_API_URL w) (MAAS_API_KEY w) ;;
  all_machines <-
    try_except
      (print "--> Fetching all machines from MaaS... (This might take a moment on large systems)" ;;;
       all_machines <- net CallMachinesList (machines_list maas_client) ;;
       print ("--> Found " ++ PyStr.str_of_nat (List.length all_machines)
              ++ " total machines.") ;;;
       ret all_machines)
      (fun e =>
         print_err ("Error fetching machines from MaaS: " ++ exn_str e) ;;;
         sys_exit 1) ;;
  generate_report all_machines ;;;
  print "--> Report generation complete.".

(** The process: its events and its exit status.  Returning from [main]
    ends the process with status 0, [sys.exit(n)] with status [n]; an
    exception that reaches the top is reported on the error stream and
    gives status 1. *)
Definition run (w : world) : list event * nat :=
  match main w with
  | (t, Returned _) => (t, 0)
  | (t, Exited code) => (t, code)
  | (t, Raised e) => ((t ++ [Stderr (exn_str e)])%list, 1)
  end.

Definition trace (w : world) : list event := fst (run w).
Definition exit_code (w : world) : nat := snd (run w).

(** The lines written to one stream, in order. *)
Fixpoint stdout_of (t : list event) : list string :=
  match t with
  | [] => []
  | Stdout s :: t' => s :: stdout_of t'
  | _ :: t' => stdout_of t'
  end.

Fixpoint stderr_of (t : list event) : list string :=
  match t with
  | [] => []
  | Stderr s :: t' => s :: stderr_of t'
  | _ :: t' => stderr_of t'
  end.

Fixpoint net_calls_of (t : list event) : list net_call :=
  match t with
  | [] => []
  | Net c :: t' => c :: net_calls_of t'
  | _ :: t' => net_calls_of t'
  end.

(** ** Vocabulary of the properties *)

(** [sub] occurs somewhere in [s]. *)
Definition Substring (sub s : string) : Prop :=
  exists pre post, s = pre ++ sub ++ post.

(** [s] begins with [p], letter case aside. *)
Definition StartsWithCI (p s : string) : Prop :=
  exists pre rest, s = pre ++ rest /\ PyStr.lower pre = PyStr.lower p.

(** The status text is a failed or broken one, letter case aside. *)
Definition FailedStatus (m : machine) : Prop :=
  Substring "failed" (PyStr.lower (status_name m)) \/
  Substring "broken" (PyStr.lower (status_name m)).

(** The per-record decisions the loop body takes. *)
Definition goes_failed (m : machine) : bool := is_failed_status m.

Definition goes_available (m : machine) : bool :=
  negb (is_failed_status m) && String.eqb (status_name m) "Ready" &&
  PyStr.mem "available" (map PyStr.lower (tags m)).

Definition goes_potential_issue (m : machine) : bool :=
  negb (is_failed_status m) && String.eqb (status_name m) "Ready" &&
  existsb dcops_match (tags m).

(** Order of two machines by hostname. *)
Definition hostname_le (a b : machine) : Prop :=
  String.leb (hostname a) (hostname b) = true.

Definition has_hostname (h : string) (m : machine) : bool :=
  String.eqb (hostname m) h.

(** [out] is [s] followed by spaces only, and is [w] wide unless [s]
    itself is wider. *)
Definition Padded (w : nat) (s out : string) : Prop :=
  (exists k, out = s ++ PyStr.repeat_char " " k) /\
  String.length out = Nat.max w (String.length s).

(** What a section prints for its sorted entries. *)
Definition section_lines (entries : list machine) (line : machine -> string)
    (none_found : string) : list string :=
  match entries with
  | [] => [none_found]
  | _ :: _ => map line entries
  end.

(** The report as the list of printed lines. *)
Definition report_lines (machines : list machine) : list string :=
  ([(newline ++ rule 60)%string; "        MaaS Machine Status Report";
    (rule 60 ++ newline)%string;
    rule 30; "(servers available)"; rule 30] ++
   section_lines (available_entries machines) server_line none_available ++
   [newline; rule 30; "(servers with potential issues)"; rule 30] ++
   section_lines (potential_issue_entries machines) server_line
                 none_potential_issue ++
   [newline; rule 40; "(Machines in any kind of failed state)"; rule 40] ++
   section_lines (failed_entries machines) failed_line none_failed ++
   [newline])%list.

(** Progress lines start with an arrow, error lines with [Error]. *)
Definition progress_line (s : string) : bool := PyStr.startswith "-->" s.
Definition error_line (s : string) : bool := PyStr.startswith "Error" s.

(** The lines [get_maas_client] and [main] write. *)
Definition msg_not_set : string :=
  "Error: MAAS_API_URL and MAAS_API_KEY environment variables must be set.".
Definition msg_connecting (url : string) : string :=
  "--> Connecting to MaaS at " ++ url ++ "...".
Definition msg_connected : string := "--> Successfully connected to MaaS.".
Definition msg_fetching : string :=
  "--> Fetching all machines from MaaS... (This might take a moment on large systems)".
Definition msg_found (n : nat) : string :=
  "--> Found " ++ PyStr.str_of_nat n ++ " total machines.".
Definition msg_complete : string := "--> Report generation complete.".

Definition not_progress (s : string) : bool := negb (progress_line s).

(** Both variables are set to non-empty values. *)
Definition Configured (w : world) (url api_key : string) : Prop :=
  MAAS_API_URL w = Some url /\ MAAS_API_KEY w = Some api_key /\
  url <> EmptyString /\ api_key <> EmptyString.


Module Spec.

(** A field cut down to [w] characters and then padded to [w], which is
    the reading "padded or truncated to width [w]". *)
Definition fit_width (w : nat) (s : string) : string :=
  PyStr.ljust w (String.substring 0 w s).

(** The Available and Potential-Issue line with fields of fixed width. *)
Definition server_line (m : machine) : string :=
  "  - Host: " ++ fit_width 25 (hostname m) ++
  " System ID: " ++ fit_width 12 (system_id m) ++
  " Owner: " ++ fit_width 15 (owner_name m) ++
  " Tags: " ++ PyRepr.repr_list (tags m).

(** The Failed line with fields of fixed width. *)
Definition failed_line (m : machine) : string :=
  "  - Host: " ++ fit_width 25 (hostname m) ++
  " System ID: " ++ fit_width 12 (system_id m) ++
  " Status: " ++ fit_width 20 (status_name m) ++
  " " ++ status_msg m.

End Spec.

(** The reading "every line has its fields at the stated widths": both
    kinds of line are the ones built with fields of fixed width. *)
Definition lines_have_fixed_width (m : machine) : Prop :=
  server_line m = Spec.server_line m /\ failed_line m = Spec.failed_line m.

(** ** Sample data *)

Module Sample.

Definition srv_a : machine :=
  mkMachine "srv-a" "abc124" "Ready" None ["DCOPS-1"; "Available"]
            (Some (mkUser "bob")).
Definition srv_b : machine :=
  mkMachine "srv-b" "abc123" "Ready" None ["available"] None.
Definition srv_c : machine :=
  mkMachine "srv-c" "abc125" "Broken" (Some "disk error") [] None.
Definition srv_d : machine :=
  mkMachine "srv-d" "abc126" "Failed testing" None ["available"; "dcops-7"] None.
Definition srv_e : machine :=
  mkMachine "srv-e" "abc127" "ready" None ["available"; "DCOPS-9"] None.
Definition srv_f : machine :=
  mkMachine "srv-f" "abc128" "Deployed" None ["available"] None.
Definition long_host : machine :=
  mkMachine "rack42-node07.dc1.example.org" "abc129" "Ready" None
            ["available"] None.

Definition inventory : list machine :=
  [srv_b; srv_a; srv_c; srv_d; srv_e; srv_f].

Definition boom : exn := mkExn "connection refused".

Definition good_client : client := mkClient (inr tt) (inr inventory).
Definition empty_client : client := mkClient (inr tt) (inr []).
Definition no_probe_client : client := mkClient (inl boom) (inr inventory).
Definition no_fetch_client : client := mkClient (inr tt) (inl boom).

Definition with_client (c : client) : world :=
  mkWorld (Some "http://maas:5240/MAAS") (Some "a:b:c") (fun _ _ => inr c).
Definition unreachable : world :=
  mkWorld (Some "http://maas:5240/MAAS") (Some "a:b:c") (fun _ _ => inl boom).
Definition no_url : world :=
  mkWorld None (Some "a:b:c") (fun _ _ => inr good_client).
Definition no_key : world :=
  mkWorld (Some "http://maas:5240/MAAS") None (fun _ _ => inr good_client).

End Sample.

(** ** More sample data *)

Module Fixture.

(** A Ready machine that carries neither kind of tag. *)
Definition spare : machine :=
  mkMachine "srv-g" "abc130" "Ready" None ["spare"; "rack-dcops-1"] None.

(** A broken machine with a message. *)
Definition dead : machine :=
  mkMachine "srv-h" "abc131" "Broken" (Some "no power") ["available"] None.

Definition shelf : list machine := [Sample.srv_b; dead; Sample.srv_a; spare].
Definition shelf_shuffled : list machine :=
  [spare; Sample.srv_a; Sample.srv_b; dead].

(** The URL variable is set, to the empty string. *)
Definition blank_url : world :=
  mkWorld (Some EmptyString) (Some "a:b:c") (fun _ _ => inr Sample.good_client).

End Fixture.

(** ** Facts about the string operations *)

Section StringFacts.

Lemma startswith_spec (p s : string) :
  PyStr.startswith p s = true <-> exists rest, s = p ++ rest.
Proof.
  revert s; induction p as [|a p IH]; intros s; simpl.
  - split; [intros _; exists s; reflexivity | reflexivity].
  - destruct s as [|b s].
    + split; [discriminate | intros [rest H]; discriminate].
    + rewrite andb_true_iff, Ascii.eqb_eq, IH. split.
      * intros [-> [rest ->]]. exists rest; reflexivity.
      * intros [rest H]. injection H as -> ->. split; [reflexivity | eauto].
Qed.

Lemma contains_spec (sub s : string) :
  PyStr.contains sub s = true <-> Substring sub s.
Proof.
  unfold Substring. induction s as [|c s IH].
  - cbn [PyStr.contains]. rewrite orb_false_r, startswith_spec. split.
    + intros [rest H]. exists EmptyString, rest. exact H.
    + intros [pre [post H]]. destruct pre; [exists post; exact H|discriminate].
  - cbn [PyStr.contains]. rewrite orb_true_iff, startswith_spec, IH. split.
    + intros [[rest H] | [pre [post H]]].
      * exists EmptyString, rest. exact H.
      * exists (String c pre), post. simpl. now rewrite H.
    + intros [pre [post H]]. destruct pre as [|c' pre].
      * left. exists post. exact H.
      * right. simpl in H. injection H as _ H. eauto.
Qed.

Lemma is_failed_status_spec (m : machine) :
  is_failed_status m = true <-> FailedStatus m.
Proof.
  unfold is_failed_status, FailedStatus.
  now rewrite orb_true_iff, !contains_spec.
Qed.

Lemma mem_spec (x : string) (l : list string) :
  PyStr.mem x l = true <-> In x l.
Proof.
  unfold PyStr.mem. rewrite existsb_exists. split.
  - intros [y [Hy E]]. apply String.eqb_eq in E. now subst.
  - intros H. exists x. split; [exact H | apply String.eqb_refl].
Qed.

Lemma length_append (a b : string) :
  String.length (a ++ b) = String.length a + String.length b.
Proof. induction a; simpl; [reflexivity | now rewrite IHa]. Qed.

Lemma length_repeat_char (c : ascii) (n : nat) :
  String.length (PyStr.repeat_char c n) = n.
Proof. induction n; simpl; [reflexivity | now rewrite IHn]. Qed.

Lemma ljust_padded (w : nat) (s : string) : Padded w s (PyStr.ljust w s).
Proof.
  unfold Padded, PyStr.ljust. split.
  - eexists; reflexivity.
  - rewrite length_append, length_repeat_char. lia.
Qed.

End StringFacts.

(** ** The [DCOPS-] pattern is a case-blind prefix test *)

Section Pattern.

Lemma star_end_always (ic : bool) (s : string) (pos : nat) :
  exists e, Re.run ic [Re.DotStar] pos s = Some e.
Proof.
  revert pos. induction s as [|x t IH]; intros pos; simpl.
  - eauto.
  - destruct (Re.dot_matches x).
    + destruct (IH (S pos)) as [e He]. simpl in He. rewrite He. eauto.
    + eauto.
Qed.

Lemma dcops_match_prefix (tag : string) :
  dcops_match tag = true <->
  exists pre rest, tag = pre ++ rest /\ PyStr.lower pre = "dcops-".
Proof.
  unfold dcops_match, Re.pmatch, dcops_pattern. split.
  - intros H.
    destruct tag as [|x1 [|x2 [|x3 [|x4 [|x5 [|x6 rest]]]]]];
      cbn [Re.run Re.char_matches] in H;
      repeat match type of H with
             | context [if ?b then _ else _] =>
                 destruct b eqn:?; [|discriminate H]
             end; try discriminate H.
    exists (String x1 (String x2 (String x3 (String x4 (String x5
              (String x6 EmptyString)))))), rest.
    split; [reflexivity|].
    repeat match goal with
           | E : Ascii.eqb _ _ = true |- _ => apply Ascii.eqb_eq in E
           end.
    cbn [PyStr.lower].
    repeat match goal with
           | E : _ = PyStr.lower_char _ |- _ => rewrite <- E; clear E
           end.
    reflexivity.
  - intros [pre [rest [-> Hpre]]].
    destruct pre as [|x1 [|x2 [|x3 [|x4 [|x5 [|x6 [|x7 pre]]]]]]];
      try discriminate Hpre.
    cbn [PyStr.lower] in Hpre. injection Hpre as E1 E2 E3 E4 E5 E6.
    cbn [append Re.run Re.char_matches].
    change (PyStr.lower_char "D") with "d"%char.
    change (PyStr.lower_char "C") with "c"%char.
    change (PyStr.lower_char "O") with "o"%char.
    change (PyStr.lower_char "P") with "p"%char.
    change (PyStr.lower_char "S") with "s"%char.
    change (PyStr.lower_char "-") with "-"%char.
    rewrite E1, E2, E3, E4, E5, E6. cbn [Ascii.eqb Bool.eqb].
    destruct (star_end_always true rest 6) as [e He].
    cbn [Re.run] in He. rewrite He. reflexivity.
Qed.

Lemma dcops_match_spec (tag : string) :
  dcops_match tag = true <-> StartsWithCI "DCOPS-" tag.
Proof. apply dcops_match_prefix. Qed.

End Pattern.

(** ** The loop as three filters *)

Section Classification.

Lemma classify_step_available (st : categories) (m : machine) :
  available_servers (classify_step st m) =
  (available_servers st ++ if goes_available m then [m] else [])%list.
Proof.
  unfold classify_step, goes_available.
  destruct (is_failed_status m); simpl; [now rewrite app_nil_r|].
  destruct (String.eqb (status_name m) "Ready"); simpl; [|now rewrite app_nil_r].
  destruct (PyStr.mem _ _), (existsb _ _); simpl;
    rewrite ?app_nil_r; reflexivity.
Qed.

Lemma classify_step_potential_issue (st : categories) (m : machine) :
  potential_issue_servers (classify_step st m) =
  (potential_issue_servers st ++ if goes_potential_issue m then [m] else [])%list.
Proof.
  unfold classify_step, goes_potential_issue.
  destruct (is_failed_status m); simpl; [now rewrite app_nil_r|].
  destruct (String.eqb (status_name m) "Ready"); simpl; [|now rewrite app_nil_r].
  destruct (PyStr.mem _ _), (existsb _ _); simpl;
    rewrite ?app_nil_r; reflexivity.
Qed.

Lemma classify_step_failed (st : categories) (m : machine) :
  failed_servers (classify_step st m) =
  (failed_servers st ++ if goes_failed m then [m] else [])%list.
Proof.
  unfold classify_step, goes_failed.
  destruct (is_failed_status m); simpl; [reflexivity|].
  destruct (String.eqb (status_name m) "Ready"); simpl; [|now rewrite app_nil_r].
  destruct (PyStr.mem _ _), (existsb _ _); simpl;
    rewrite ?app_nil_r; reflexivity.
Qed.

Lemma filter_cons_app {A} (f : A -> bool) (x : A) (l : list A) :
  filter f (x :: l) = ((if f x then [x] else []) ++ filter f l)%list.
Proof. simpl. destruct (f x); reflexivity. Qed.

Lemma fold_classify (machines : list machine) (st : categories) :
  let r := fold_left classify_step machines st in
  available_servers r =
    (available_servers st ++ filter goes_available machines)%list /\
  potential_issue_servers r =
    (potential_issue_servers st ++ filter goes_potential_issue machines)%list /\
  failed_servers r =
    (failed_servers st ++ filter goes_failed machines)%list.
Proof.
  revert st. induction machines as [|m ms IH]; intros st.
  - simpl. now rewrite !app_nil_r.
  - cbn [fold_left]. destruct (IH (classify_step st m)) as (Ha & Hp & Hf).
    cbv zeta. rewrite Ha, Hp, Hf.
    rewrite classify_step_available, classify_step_potential_issue,
      classify_step_failed, !filter_cons_app, <- !app_assoc.
    repeat split.
Qed.

Lemma classify_available (machines : list machine) :
  available_servers (classify machines) = filter goes_available machines.
Proof. apply (fold_classify machines no_categories). Qed.

Lemma classify_potential_issue (machines : list machine) :
  potential_issue_servers (classify machines) =
  filter goes_potential_issue machines.
Proof. apply (fold_classify machines no_categories). Qed.

Lemma classify_failed (machines : list machine) :
  failed_servers (classify machines) = filter goes_failed machines.
Proof. apply (fold_classify machines no_categories). Qed.

Lemma ready_not_failed (m : machine) :
  status_name m = "Ready" -> is_failed_status m = false.
Proof. unfold is_failed_status. intros ->. reflexivity. Qed.

Lemma in_available_iff (machines : list machine) (m : machine) :
  In m (available_servers (classify machines)) <->
  In m machines /\ goes_available m = true.
Proof. rewrite classify_available. apply filter_In. Qed.

Lemma in_potential_issue_iff (machines : list machine) (m : machine) :
  In m (potential_issue_servers (classify machines)) <->
  In m machines /\ goes_potential_issue m = true.
Proof. rewrite classify_potential_issue. apply filter_In. Qed.

Lemma in_failed_iff (machines : list machine) (m : machine) :
  In m (failed_servers (classify machines)) <->
  In m machines /\ goes_failed m = true.
Proof. rewrite classify_failed. apply filter_In. Qed.

Lemma goes_available_ready (m : machine) :
  goes_available m = true -> status_name m = "Ready".
Proof.
  unfold goes_available. rewrite !andb_true_iff.
  intros [[_ H] _]. now apply String.eqb_eq.
Qed.

Lemma goes_potential_issue_ready (m : machine) :
  goes_potential_issue m = true -> status_name m = "Ready".
Proof.
  unfold goes_potential_issue. rewrite !andb_true_iff.
  intros [[_ H] _]. now apply String.eqb_eq.
Qed.

End Classification.

(** ** Claims on the classifier *)

(** C1: a machine whose lowered status contains "failed" or "broken" is put
    in the Failed list and in neither the Available nor the Potential-Issue
    list, whatever its tags are. *)
Theorem failed_status_is_failed_only (machines : list machine) (m : machine) :
  In m machines -> FailedStatus m ->
  In m (failed_servers (classify machines)) /\
  ~ In m (available_servers (classify machines)) /\
  ~ In m (potential_issue_servers (classify machines)).
Proof.
  intros Hin Hf. apply is_failed_status_spec in Hf.
  rewrite in_failed_iff, in_available_iff, in_potential_issue_iff.
  unfold goes_failed, goes_available, goes_potential_issue. rewrite Hf.
  repeat split; try assumption; intros [_ H]; discriminate H.
Qed.

Lemma failed_status_is_failed_only_witness :
  In Sample.srv_d (failed_servers (classify Sample.inventory)) /\
  ~ In Sample.srv_d (available_servers (classify Sample.inventory)) /\
  ~ In Sample.srv_d (potential_issue_servers (classify Sample.inventory)).
Proof.
  apply (failed_status_is_failed_only Sample.inventory Sample.srv_d).
  - simpl. tauto.
  - apply is_failed_status_spec. reflexivity.
Defined.

(** C2: a machine whose status is not a failed or broken one enters the
    Available or the Potential-Issue list only when its status is exactly
    "Ready"; with any other status, the lowercase "ready" among them, it is
    in none of the three lists. *)
Theorem only_exact_ready_is_listed (machines : list machine) (m : machine) :
  ~ FailedStatus m ->
  (In m (available_servers (classify machines)) \/
   In m (potential_issue_servers (classify machines)) ->
   status_name m = "Ready") /\
  (status_name m <> "Ready" ->
   ~ In m (available_servers (classify machines)) /\
   ~ In m (potential_issue_servers (classify machines)) /\
   ~ In m (failed_servers (classify machines))) /\
  (status_name m = "ready" ->
   ~ In m (available_servers (classify machines)) /\
   ~ In m (potential_issue_servers (classify machines)) /\
   ~ In m (failed_servers (classify machines))).
Proof.
  intros Hnf.
  assert (Hready : In m (available_servers (classify machines)) \/
                   In m (potential_issue_servers (classify machines)) ->
                   status_name m = "Ready").
  { rewrite in_available_iff, in_potential_issue_iff.
    intros [[_ H] | [_ H]];
      [now apply goes_available_ready | now apply goes_potential_issue_ready]. }
  assert (Hnone : status_name m <> "Ready" ->
                  ~ In m (available_servers (classify machines)) /\
                  ~ In m (potential_issue_servers (classify machines)) /\
                  ~ In m (failed_servers (classify machines))).
  { intros Hne. repeat split.
    - intros H. apply Hne, Hready. now left.
    - intros H. apply Hne, Hready. now right.
    - rewrite in_failed_iff. intros [_ H]. apply Hnf.
      now apply is_failed_status_spec. }
  split; [exact Hready|]. split; [exact Hnone|].
  intros E. apply Hnone. rewrite E. discriminate.
Qed.

Lemma only_exact_ready_is_listed_witness :
  ~ In Sample.srv_e (available_servers (classify Sample.inventory)) /\
  ~ In Sample.srv_e (potential_issue_servers (classify Sample.inventory)) /\
  ~ In Sample.srv_e (failed_servers (classify Sample.inventory)).
Proof.
  apply (only_exact_ready_is_listed Sample.inventory Sample.srv_e).
  - intros H. apply is_failed_status_spec in H. discriminate H.
  - reflexivity.
Defined.

(** C3: for a machine whose status is exactly "Ready": it is in the
    Available list iff its lowered tags contain "available"; it is in the
    Potential-Issue list iff one of its tags starts with "DCOPS-", letter
    case aside; when both hold it is in both lists; with no tags it is in
    neither. *)
Theorem ready_machine_lists (machines : list machine) (m : machine) :
  In m machines -> status_name m = "Ready" ->
  (In m (available_servers (classify machines)) <->
   In "available" (map PyStr.lower (tags m))) /\
  (In m (potential_issue_servers (classify machines)) <->
   exists tag, In tag (tags m) /\ StartsWithCI "DCOPS-" tag) /\
  (In "available" (map PyStr.lower (tags m)) ->
   (exists tag, In tag (tags m) /\ StartsWithCI "DCOPS-" tag) ->
   In m (available_servers (classify machines)) /\
   In m (potential_issue_servers (classify machines))) /\
  (tags m = [] ->
   ~ In m (available_servers (classify machines)) /\
   ~ In m (potential_issue_servers (classify machines))).
Proof.
  intros Hin Hready.
  assert (Ha : In m (available_servers (classify machines)) <->
               In "available" (map PyStr.lower (tags m))).
  { rewrite in_available_iff. unfold goes_available.
    rewrite (ready_not_failed m Hready), Hready, String.eqb_refl.
    cbn [negb andb]. rewrite mem_spec. tauto. }
  assert (Hp : In m (potential_issue_servers (classify machines)) <->
               exists tag, In tag (tags m) /\ StartsWithCI "DCOPS-" tag).
  { rewrite in_potential_issue_iff. unfold goes_potential_issue.
    rewrite (ready_not_failed m Hready), Hready, String.eqb_refl.
    cbn [negb andb]. rewrite existsb_exists.
    split.
    - intros [_ [tag [Ht Hm]]]. exists tag. split; [exact Ht|].
      now apply dcops_match_spec.
    - intros [tag [Ht Hm]]. split; [exact Hin|]. exists tag.
      split; [exact Ht|]. now apply dcops_match_spec. }
  split; [exact Ha|]. split; [exact Hp|]. split.
  - intros H1 H2. split; [now apply Ha | now apply Hp].
  - intros E. rewrite Ha, Hp, E. split.
    + intros [].
    + intros [tag [[] _]].
Qed.

Lemma ready_machine_lists_witness :
  In Sample.srv_a (available_servers (classify Sample.inventory)) /\
  In Sample.srv_a (potential_issue_servers (classify Sample.inventory)).
Proof.
  destruct (ready_machine_lists Sample.inventory Sample.srv_a) as (_ & _ & H & _).
  - simpl. tauto.
  - reflexivity.
  - apply H.
    + simpl. tauto.
    + exists "DCOPS-1". split; [simpl; tauto|].
      exists "DCOPS-", "1". split; reflexivity.
Defined.

(** C8: two machines of the same list that agree on status and tags are
    in the same ones of the three lists, whatever their other fields are. *)
Theorem classification_reads_status_and_tags
    (machines : list machine) (m1 m2 : machine) :
  In m1 machines -> In m2 machines ->
  status_name m1 = status_name m2 -> tags m1 = tags m2 ->
  (In m1 (available_servers (classify machines)) <->
   In m2 (available_servers (classify machines))) /\
  (In m1 (potential_issue_servers (classify machines)) <->
   In m2 (potential_issue_servers (classify machines))) /\
  (In m1 (failed_servers (classify machines)) <->
   In m2 (failed_servers (classify machines))).
Proof.
  intros H1 H2 Hs Ht.
  rewrite !in_available_iff, !in_potential_issue_iff, !in_failed_iff.
  unfold goes_available, goes_potential_issue, goes_failed, is_failed_status.
  rewrite Hs, Ht. tauto.
Qed.

Lemma classification_reads_status_and_tags_witness :
  (In Sample.srv_b (available_servers (classify
      [Sample.srv_b; Sample.long_host])) <->
   In Sample.long_host (available_servers (classify
      [Sample.srv_b; Sample.long_host]))) /\
  (In Sample.srv_b (potential_issue_servers (classify
      [Sample.srv_b; Sample.long_host])) <->
   In Sample.long_host (potential_issue_servers (classify
      [Sample.srv_b; Sample.long_host]))) /\
  (In Sample.srv_b (failed_servers (classify
      [Sample.srv_b; Sample.long_host])) <->
   In Sample.long_host (failed_servers (classify
      [Sample.srv_b; Sample.long_host]))).
Proof.
  apply (classification_reads_status_and_tags
           [Sample.srv_b; Sample.long_host] Sample.srv_b Sample.long_host).
  - simpl. tauto.
  - simpl. tauto.
  - reflexivity.
  - reflexivity.
Defined.

(** ** Order of hostnames *)

Section HostnameOrder.

Lemma ascii_compare_trans_eq (a b c : ascii) :
  Ascii.compare a b = Eq -> Ascii.compare b c = Ascii.compare a c.
Proof.
  unfold Ascii.compare. intros H. apply N.compare_eq_iff in H. now rewrite H.
Qed.

Lemma ascii_compare_lt_trans (a b c : ascii) :
  Ascii.compare a b = Lt -> Ascii.compare b c <> Gt -> Ascii.compare a c = Lt.
Proof.
  unfold Ascii.compare. intros H1 H2.
  apply N.compare_lt_iff in H1. apply N.compare_lt_iff.
  destruct (N.compare_spec (N_of_ascii b) (N_of_ascii c)) as [E|L|G].
  - now rewrite <- E.
  - now apply N.lt_trans with (N_of_ascii b).
  - congruence.
Qed.

Lemma string_leb_trans (a b c : string) :
  String.leb a b = true -> String.leb b c = true -> String.leb a c = true.
Proof.
  unfold String.leb. revert b c.
  induction a as [|x a IH]; intros [|y b] [|z c]; simpl; try easy.
  destruct (Ascii.compare x y) eqn:Exy.
  - rewrite <- (ascii_compare_trans_eq x y z Exy).
    destruct (Ascii.compare y z); try easy. apply IH.
  - intros _ H. rewrite (ascii_compare_lt_trans x y z Exy); [reflexivity|].
    intros G. rewrite G in H. discriminate H.
  - discriminate.
Qed.

Lemma string_leb_false_neq (a b : string) :
  String.leb a b = false -> a <> b.
Proof.
  intros H E. subst b. destruct (String.leb_total a a); congruence.
Qed.

Lemma hostname_le_trans (a b c : machine) :
  hostname_le a b -> hostname_le b c -> hostname_le a c.
Proof. apply string_leb_trans. Qed.

Lemma hostname_le_total (a b : machine) : hostname_le a b \/ hostname_le b a.
Proof. apply String.leb_total. Qed.

End HostnameOrder.

(** ** The sort: ordered, stable, a rearrangement *)

Section Sort.

Lemma insert_perm (m : machine) (l : list machine) :
  Permutation (insert_by_hostname m l) (m :: l).
Proof.
  induction l as [|x t IH]; simpl; [reflexivity|].
  destruct (String.leb (hostname m) (hostname x)); [reflexivity|].
  rewrite IH. apply perm_swap.
Qed.

Lemma sorted_perm (l : list machine) : Permutation (sorted_by_hostname l) l.
Proof.
  induction l as [|m t IH]; simpl; [reflexivity|].
  rewrite insert_perm. now apply perm_skip.
Qed.

Lemma insert_sorted (m : machine) (l : list machine) :
  StronglySorted hostname_le l ->
  StronglySorted hostname_le (insert_by_hostname m l).
Proof.
  induction 1 as [|x t Hs IH Hx]; simpl.
  - constructor; constructor.
  - destruct (String.leb (hostname m) (hostname x)) eqn:E.
    + constructor; [constructor; assumption|].
      constructor; [exact E|].
      eapply Forall_impl; [|exact Hx].
      intros y Hy. exact (hostname_le_trans m x y E Hy).
    + constructor; [exact IH|].
      eapply Permutation_Forall; [symmetry; apply insert_perm|].
      constructor; [|exact Hx].
      destruct (hostname_le_total x m) as [H|H]; [exact H|].
      unfold hostname_le in H. congruence.
Qed.

Lemma sorted_sorted (l : list machine) :
  StronglySorted hostname_le (sorted_by_hostname l).
Proof.
  induction l as [|m t IH]; simpl; [constructor | now apply insert_sorted].
Qed.

Lemma insert_stable (h : string) (m : machine) (l : list machine) :
  filter (has_hostname h) (insert_by_hostname m l) =
  filter (has_hostname h) (m :: l).
Proof.
  induction l as [|x t IH]; [reflexivity|].
  cbn [insert_by_hostname].
  destruct (String.leb (hostname m) (hostname x)) eqn:E; [reflexivity|].
  apply string_leb_false_neq in E.
  cbn [filter] in *. rewrite IH. unfold has_hostname.
  destruct (String.eqb_spec (hostname m) h) as [Em|Em];
    destruct (String.eqb_spec (hostname x) h) as [Ex|Ex];
    try reflexivity.
  congruence.
Qed.

Lemma sorted_stable (h : string) (l : list machine) :
  filter (has_hostname h) (sorted_by_hostname l) = filter (has_hostname h) l.
Proof.
  induction l as [|m t IH]; [reflexivity|].
  cbn [sorted_by_hostname]. rewrite insert_stable. cbn [filter].
  now rewrite IH.
Qed.

Lemma sorted_nil_iff (l : list machine) : sorted_by_hostname l = [] <-> l = [].
Proof.
  split; [|intros ->; reflexivity].
  intros H. destruct l as [|m t]; [reflexivity|].
  apply (f_equal (@List.length machine)) in H.
  rewrite (Permutation_length (sorted_perm (m :: t))) in H. discriminate H.
Qed.

End Sort.

(** ** What [generate_report] prints *)

Section Report.

Lemma print_all_spec (lines : list string) :
  print_all lines = (map Stdout lines, Returned tt).
Proof.
  induction lines as [|l t IH]; [reflexivity|].
  cbn [print_all]. rewrite IH. reflexivity.
Qed.

Lemma print_section_spec (servers : list machine) (line : machine -> string)
    (none_found : string) :
  print_section servers line none_found =
  (map Stdout (section_lines (sorted_by_hostname servers) line none_found),
   Returned tt).
Proof.
  destruct servers as [|m t]; [reflexivity|].
  cbn [print_section]. rewrite print_all_spec. unfold section_lines.
  destruct (sorted_by_hostname (m :: t)) eqn:E; [|reflexivity].
  apply (proj1 (sorted_nil_iff (m :: t))) in E. discriminate E.
Qed.

Lemma generate_report_spec (machines : list machine) :
  generate_report machines = (map Stdout (report_lines machines), Returned tt).
Proof.
  unfold generate_report, report_lines, available_entries,
    potential_issue_entries, failed_entries.
  rewrite !print_section_spec. cbv [bind print].
  rewrite !map_app. cbn [map app]. reflexivity.
Qed.

Lemma stdout_of_map (lines : list string) : stdout_of (map Stdout lines) = lines.
Proof. induction lines; simpl; congruence. Qed.

Lemma stdout_of_app (t1 t2 : list event) :
  stdout_of (t1 ++ t2) = (stdout_of t1 ++ stdout_of t2)%list.
Proof.
  induction t1 as [|[s|s|c] t IH]; simpl; congruence.
Qed.

Lemma stderr_of_map (lines : list string) : stderr_of (map Stdout lines) = [].
Proof. induction lines; simpl; congruence. Qed.

Lemma stderr_of_app (t1 t2 : list event) :
  stderr_of (t1 ++ t2) = (stderr_of t1 ++ stderr_of t2)%list.
Proof.
  induction t1 as [|[s|s|c] t IH]; simpl; congruence.
Qed.

End Report.

(** ** Claims on the report *)

(** C4: the report prints, in each of its three sections, one line per
    entry of a list that is ascending by hostname and in which machines of
    equal hostname keep the order they have in the input. *)
Theorem sections_sorted_and_stable (machines : list machine) :
  stdout_of (fst (generate_report machines)) = report_lines machines /\
  (StronglySorted hostname_le (available_entries machines) /\
   Permutation (available_entries machines)
               (available_servers (classify machines)) /\
   forall h, filter (has_hostname h) (available_entries machines) =
             filter (has_hostname h) (filter goes_available machines)) /\
  (StronglySorted hostname_le (potential_issue_entries machines) /\
   Permutation (potential_issue_entries machines)
               (potential_issue_servers (classify machines)) /\
   forall h, filter (has_hostname h) (potential_issue_entries machines) =
             filter (has_hostname h) (filter goes_potential_issue machines)) /\
  (StronglySorted hostname_le (failed_entries machines) /\
   Permutation (failed_entries machines)
               (failed_servers (classify machines)) /\
   forall h, filter (has_hostname h) (failed_entries machines) =
             filter (has_hostname h) (filter goes_failed machines)).
Proof.
  split.
  - rewrite generate_report_spec. apply stdout_of_map.
  - unfold available_entries, potential_issue_entries, failed_entries.
    repeat split;
      try apply sorted_sorted; try apply sorted_perm;
      intros h; rewrite sorted_stable.
    + now rewrite classify_available.
    + now rewrite classify_potential_issue.
    + now rewrite classify_failed.
Qed.

(** C9: on the empty list the report returns normally and prints the
    three "none found" sentences, one in each section. *)
Theorem empty_report :
  snd (generate_report []) = Returned tt /\
  stdout_of (fst (generate_report [])) =
  [(newline ++ rule 60)%string; "        MaaS Machine Status Report";
   (rule 60 ++ newline)%string;
   rule 30; "(servers available)"; rule 30;
   "  No machines in 'Ready' state found with the 'available' tag.";
   newline;
   rule 30; "(servers with potential issues)"; rule 30;
   "  No machines in 'Ready' state found with a 'DCOPS-*' tag.";
   newline;
   rule 40; "(Machines in any kind of failed state)"; rule 40;
   "  No machines found in a failed or broken state.";
   newline].
Proof. split; reflexivity. Qed.

(** C10: a Failed line for a machine whose status message is the empty
    string is the same line as for a machine with no status message, and
    it ends after the status field without a "Message:" part. *)
Theorem empty_message_as_absent
    (h i s : string) (t : list string) (o : option user) :
  failed_line (mkMachine h i s (Some EmptyString) t o) =
  failed_line (mkMachine h i s None t o) /\
  failed_line (mkMachine h i s (Some EmptyString) t o) =
  "  - Host: " ++ PyStr.ljust 25 h ++ " System ID: " ++ PyStr.ljust 12 i ++
  " Status: " ++ PyStr.ljust 20 s ++ " ".
Proof. split; reflexivity. Qed.

(** ** The five ways a run can go *)

Section Runs.

Lemma falsy_configured (w : world) (url api_key : string) :
  Configured w url api_key ->
  falsy (MAAS_API_URL w) || falsy (MAAS_API_KEY w) = false.
Proof.
  intros (-> & -> & Hu & Hk).
  destruct url; [contradiction|]. destruct api_key; [contradiction|].
  reflexivity.
Qed.

Lemma main_not_configured (w : world) :
  falsy (MAAS_API_URL w) || falsy (MAAS_API_KEY w) = true ->
  main w = ([Stderr msg_not_set], Exited 1).
Proof.
  intros H. unfold main, get_maas_client. rewrite H. reflexivity.
Qed.

Lemma main_connect_fails (w : world) (url api_key : string) (e : exn) :
  Configured w url api_key -> connect w url api_key = inl e ->
  main w = ([Stdout (msg_connecting url); Net (CallConnect url api_key);
             Stderr ("Error connecting to MaaS: " ++ exn_str e)], Exited 1).
Proof.
  intros Hc He. unfold main, get_maas_client.
  rewrite (falsy_configured w url api_key Hc).
  destruct Hc as (-> & -> & _ & _). cbn [fmt_opt]. rewrite He. reflexivity.
Qed.

Lemma main_probe_fails (w : world) (url api_key : string) (c : client) (e : exn) :
  Configured w url api_key -> connect w url api_key = inr c ->
  users_list c = inl e ->
  main w = ([Stdout (msg_connecting url); Net (CallConnect url api_key);
             Net CallUsersList;
             Stderr ("Error connecting to MaaS: " ++ exn_str e)], Exited 1).
Proof.
  intros Hc Hconn He. unfold main, get_maas_client.
  rewrite (falsy_configured w url api_key Hc).
  destruct Hc as (-> & -> & _ & _). cbn [fmt_opt]. rewrite Hconn.
  cbv [bind print net try_except]. rewrite He. reflexivity.
Qed.

Lemma main_fetch_fails (w : world) (url api_key : string) (c : client)
    (u : unit) (e : exn) :
  Configured w url api_key -> connect w url api_key = inr c ->
  users_list c = inr u -> machines_list c = inl e ->
  main w = ([Stdout (msg_connecting url); Net (CallConnect url api_key);
             Net CallUsersList; Stdout msg_connected; Stdout msg_fetching;
             Net CallMachinesList;
             Stderr ("Error fetching machines from MaaS: " ++ exn_str e)],
            Exited 1).
Proof.
  intros Hc Hconn Hu He. unfold main, get_maas_client.
  rewrite (falsy_configured w url api_key Hc).
  destruct Hc as (-> & -> & _ & _). cbn [fmt_opt]. rewrite Hconn.
  cbv [bind print net try_except ret]. rewrite Hu.
  cbv [bind print net try_except ret]. rewrite He. reflexivity.
Qed.

Lemma main_succeeds (w : world) (url api_key : string) (c : client)
    (u : unit) (ms : list machine) :
  Configured w url api_key -> connect w url api_key = inr c ->
  users_list c = inr u -> machines_list c = inr ms ->
  main w = (([Stdout (msg_connecting url); Net (CallConnect url api_key);
              Net CallUsersList; Stdout msg_connected; Stdout msg_fetching;
              Net CallMachinesList; Stdout (msg_found (List.length ms))] ++
             map Stdout (report_lines ms) ++ [Stdout msg_complete])%list,
            Returned tt).
Proof.
  intros Hc Hconn Hu Hm. unfold main, get_maas_client.
  rewrite (falsy_configured w url api_key Hc).
  destruct Hc as (-> & -> & _ & _). cbn [fmt_opt]. rewrite Hconn.
  cbv [bind print net try_except ret]. rewrite Hu.
  cbv [bind print net try_except ret]. rewrite Hm.
  rewrite generate_report_spec. reflexivity.
Qed.

End Runs.

Section RunShapes.

Lemma falsy_false (x : option string) :
  falsy x = false -> exists s, x = Some s /\ s <> EmptyString.
Proof.
  destruct x as [[|c s]|]; try discriminate. intros _.
  eexists; split; [reflexivity | discriminate].
Qed.


Lemma rule_not_marked (n : nat) :
  progress_line (rule (S n)) = false /\ error_line (rule (S n)) = false.
Proof. split; reflexivity. Qed.






End RunShapes.

(** ** Claims on the lines *)

(** C7, as stated, fails: a hostname longer than 25 characters is printed
    whole, so the line is not the one with fields cut to their width. *)
Lemma long_hostname_not_truncated :
  ~ lines_have_fixed_width Sample.long_host.
Proof. intros [H _]. vm_compute in H. discriminate H. Qed.

Example long_hostname_line :
  In ("  - Host: rack42-node07.dc1.example.org System ID: abc129       " ++
      "Owner: Unassigned      Tags: ['available']")
     (stdout_of (fst (generate_report [Sample.long_host]))).
Proof. vm_compute. tauto. Qed.

(** C7, amended: every Available and Potential-Issue line carries the
    hostname, the system id and the owner's name (or "Unassigned") each
    followed by spaces up to 25, 12 and 15 characters and never cut, then
    the tags; every Failed line carries hostname, system id and status
    padded in the same way to 25, 12 and 20, and the message part only
    when there is a non-empty message. *)
Theorem lines_pad_without_truncating (m : machine) :
  (exists h i o,
     server_line m =
       "  - Host: " ++ h ++ " System ID: " ++ i ++ " Owner: " ++ o ++
       " Tags: " ++ PyRepr.repr_list (tags m) /\
     Padded 25 (hostname m) h /\ Padded 12 (system_id m) i /\
     Padded 15 (match owner m with
                | Some u => username u
                | None => "Unassigned"
                end) o) /\
  (exists h i s,
     failed_line m =
       "  - Host: " ++ h ++ " System ID: " ++ i ++ " Status: " ++ s ++ " " ++
       match status_message m with
       | Some (String c r) => "Message: " ++ String c r
       | Some EmptyString => EmptyString
       | None => EmptyString
       end /\
     Padded 25 (hostname m) h /\ Padded 12 (system_id m) i /\
     Padded 20 (status_name m) s).
Proof.
  split.
  - exists (PyStr.ljust 25 (hostname m)), (PyStr.ljust 12 (system_id m)),
      (PyStr.ljust 15 (owner_name m)).
    repeat split; try apply ljust_padded; try reflexivity.
  - exists (PyStr.ljust 25 (hostname m)), (PyStr.ljust 12 (system_id m)),
      (PyStr.ljust 20 (status_name m)).
    repeat split; try apply ljust_padded; try reflexivity.
    unfold failed_line, status_msg.
    destruct (status_message m) as [[|c r]|]; reflexivity.
Qed.

(** ** Claims on the process *)

(** C5: with either variable absent the run ends with status 1 after one
    line on the error stream and without any network call; when the
    connection, the probe or the fetch raises, the run ends with status 1
    and the error line ends with the text of the exception; when all three
    succeed the status is 0. *)
Theorem exit_status (w : world) :
  (MAAS_API_URL w = None \/ MAAS_API_KEY w = None ->
   exit_code w = 1 /\ net_calls_of (trace w) = [] /\
   stdout_of (trace w) = [] /\ stderr_of (trace w) = [msg_not_set]) /\
  (forall url api_key e,
     Configured w url api_key -> connect w url api_key = inl e ->
     exit_code w = 1 /\
     stderr_of (trace w) = ["Error connecting to MaaS: " ++ exn_str e]) /\
  (forall url api_key c e,
     Configured w url api_key -> connect w url api_key = inr c ->
     users_list c = inl e ->
     exit_code w = 1 /\
     stderr_of (trace w) = ["Error connecting to MaaS: " ++ exn_str e]) /\
  (forall url api_key c u e,
     Configured w url api_key -> connect w url api_key = inr c ->
     users_list c = inr u -> machines_list c = inl e ->
     exit_code w = 1 /\
     stderr_of (trace w) = ["Error fetching machines from MaaS: " ++ exn_str e]) /\
  (forall url api_key c u ms,
     Configured w url api_key -> connect w url api_key = inr c ->
     users_list c = inr u -> machines_list c = inr ms ->
     exit_code w = 0 /\ stderr_of (trace w) = []).
Proof.
  unfold exit_code, trace, run. split; [|split; [|split; [|split]]].
  - intros H. rewrite main_not_configured.
    + repeat split.
    + destruct H as [-> | ->]; [reflexivity | apply orb_true_r].
  - intros url api_key e Hc He.
    rewrite (main_connect_fails w url api_key e Hc He). split; reflexivity.
  - intros url api_key c e Hc Hconn He.
    rewrite (main_probe_fails w url api_key c e Hc Hconn He).
    split; reflexivity.
  - intros url api_key c u e Hc Hconn Hu He.
    rewrite (main_fetch_fails w url api_key c u e Hc Hconn Hu He).
    split; reflexivity.
  - intros url api_key c u ms Hc Hconn Hu Hm.
    rewrite (main_succeeds w url api_key c u ms Hc Hconn Hu Hm).
    split; [reflexivity|]. cbn [fst].
    rewrite !stderr_of_app, stderr_of_map. reflexivity.
Qed.

Lemma exit_status_witness :
  (exit_code Sample.no_url = 1 /\ net_calls_of (trace Sample.no_url) = [] /\
   stdout_of (trace Sample.no_url) = [] /\
   stderr_of (trace Sample.no_url) = [msg_not_set]) /\
  (exit_code Sample.unreachable = 1 /\
   stderr_of (trace Sample.unreachable) =
     ["Error connecting to MaaS: connection refused"]) /\
  (exit_code (Sample.with_client Sample.no_probe_client) = 1 /\
   stderr_of (trace (Sample.with_client Sample.no_probe_client)) =
     ["Error connecting to MaaS: connection refused"]) /\
  (exit_code (Sample.with_client Sample.no_fetch_client) = 1 /\
   stderr_of (trace (Sample.with_client Sample.no_fetch_client)) =
     ["Error fetching machines from MaaS: connection refused"]) /\
  (exit_code (Sample.with_client Sample.good_client) = 0 /\
   stderr_of (trace (Sample.with_client Sample.good_client)) = []).
Proof.
  assert (Hc : forall f, Configured
            (mkWorld (Some "http://maas:5240/MAAS") (Some "a:b:c") f)
            "http://maas:5240/MAAS" "a:b:c").
  { intros f. repeat split; discriminate. }
  split; [|split; [|split; [|split]]].
  - apply (proj1 (exit_status Sample.no_url)). left. reflexivity.
  - apply (proj1 (proj2 (exit_status Sample.unreachable))
             "http://maas:5240/MAAS" "a:b:c" Sample.boom (Hc _)).
    reflexivity.
  - apply (proj1 (proj2 (proj2
             (exit_status (Sample.with_client Sample.no_probe_client))))
             "http://maas:5240/MAAS" "a:b:c" Sample.no_probe_client
             Sample.boom (Hc _)); reflexivity.
  - apply (proj1 (proj2 (proj2 (proj2
             (exit_status (Sample.with_client Sample.no_fetch_client)))))
             "http://maas:5240/MAAS" "a:b:c" Sample.no_fetch_client tt
             Sample.boom (Hc _)); reflexivity.
  - apply (proj2 (proj2 (proj2 (proj2
             (exit_status (Sample.with_client Sample.good_client)))))
             "http://maas:5240/MAAS" "a:b:c" Sample.good_client tt
             Sample.inventory (Hc _)); reflexivity.
Defined.



(** ** Further properties of the process *)

Section ProcessFacts.

Lemma run_of_main (w : world) (t : list event) (code : nat) :
  main w = (t, Exited code) -> run w = (t, code).
Proof. unfold run. now intros ->. Qed.

Lemma falsy_iff (x : option string) :
  falsy x = true <-> x = None \/ x = Some EmptyString.
Proof.
  destruct x as [[|c s]|]; simpl; (split; [intros H | intros [H|H]]);
    try discriminate; auto.
Qed.

Lemma net_calls_of_map (lines : list string) :
  net_calls_of (map Stdout lines) = [].
Proof. induction lines; simpl; congruence. Qed.

Lemma net_calls_of_app (t1 t2 : list event) :
  net_calls_of (t1 ++ t2) = (net_calls_of t1 ++ net_calls_of t2)%list.
Proof.
  induction t1 as [|[s|s|c] t IH]; simpl; congruence.
Qed.

Lemma configured_or_not (w : world) :
  falsy (MAAS_API_URL w) || falsy (MAAS_API_KEY w) = true \/
  exists url api_key, Configured w url api_key.
Proof.
  destruct (falsy (MAAS_API_URL w) || falsy (MAAS_API_KEY w)) eqn:F;
    [now left | right].
  apply orb_false_iff in F. destruct F as [Fu Fk].
  destruct (falsy_false _ Fu) as (url & Eu & Nu).
  destruct (falsy_false _ Fk) as (key & Ek & Nk).
  exists url, key. repeat split; assumption.
Qed.

Lemma configured_unique (w : world) (u1 k1 u2 k2 : string) :
  Configured w u1 k1 -> Configured w u2 k2 -> u1 = u2 /\ k1 = k2.
Proof.
  intros (E1 & E2 & _) (E3 & E4 & _). split; congruence.
Qed.

(** The four ways a configured run can go, each with the result of
    [main]. *)
Lemma configured_cases (w : world) (url api_key : string) :
  Configured w url api_key ->
  (exists e, connect w url api_key = inl e /\
     main w = ([Stdout (msg_connecting url); Net (CallConnect url api_key);
                Stderr ("Error connecting to MaaS: " ++ exn_str e)],
               Exited 1)) \/
  (exists c e, connect w url api_key = inr c /\ users_list c = inl e /\
     main w = ([Stdout (msg_connecting url); Net (CallConnect url api_key);
                Net CallUsersList;
                Stderr ("Error connecting to MaaS: " ++ exn_str e)],
               Exited 1)) \/
  (exists c u e, connect w url api_key = inr c /\ users_list c = inr u /\
     machines_list c = inl e /\
     main w = ([Stdout (msg_connecting url); Net (CallConnect url api_key);
                Net CallUsersList; Stdout msg_connected; Stdout msg_fetching;
                Net CallMachinesList;
                Stderr ("Error fetching machines from MaaS: " ++ exn_str e)],
               Exited 1)) \/
  (exists c u ms, connect w url api_key = inr c /\ users_list c = inr u /\
     machines_list c = inr ms /\
     main w = (([Stdout (msg_connecting url); Net (CallConnect url api_key);
                 Net CallUsersList; Stdout msg_connected; Stdout msg_fetching;
                 Net CallMachinesList; Stdout (msg_found (List.length ms))] ++
                map Stdout (report_lines ms) ++ [Stdout msg_complete])%list,
               Returned tt)).
Proof.
  intros Hc.
  destruct (connect w url api_key) as [e|c] eqn:Econn.
  { left. exists e. split; [reflexivity|]. now apply main_connect_fails. }
  right. destruct (users_list c) as [e|u] eqn:Eul.
  { left. exists c, e. repeat split; try assumption.
    now apply main_probe_fails with (c := c). }
  right. destruct (machines_list c) as [e|ms] eqn:Eml.
  - left. exists c, u, e. repeat split; try assumption.
    now apply main_fetch_fails with (c := c) (u := u).
  - right. exists c, u, ms. repeat split; try assumption.
    now apply main_succeeds with (c := c) (u := u).
Qed.

End ProcessFacts.

(** X1: the run consists of the one configuration error line, with
    status 1, exactly when one of the two variables is absent or empty. *)
Theorem configuration_error_iff (w : world) :
  (MAAS_API_URL w = None \/ MAAS_API_URL w = Some EmptyString \/
   MAAS_API_KEY w = None \/ MAAS_API_KEY w = Some EmptyString) <->
  run w = ([Stderr msg_not_set], 1).
Proof.
  split.
  - intros H. apply run_of_main, main_not_configured.
    apply orb_true_iff. rewrite !falsy_iff. tauto.
  - intros R. destruct (configured_or_not w) as [F | (url & key & Hc)].
    + apply orb_true_iff in F. rewrite !falsy_iff in F. tauto.
    + exfalso. unfold run in R.
      destruct (configured_cases w url key Hc) as
        [(e & _ & M) | [(c & e & _ & _ & M)
           | [(c & u & e & _ & _ & _ & M) | (c & u & ms & _ & _ & _ & M)]]];
        rewrite M in R; discriminate R.
Qed.

(** X2: the calls on the client library are, in this order, [connect]
    with the two configured values, then the user list, then the machine
    list; nothing is called when the configuration is incomplete, the
    user list is asked for only after [connect] returned, and the machine
    list only after the user list returned. *)
Theorem network_calls_in_order (w : world) :
  (falsy (MAAS_API_URL w) || falsy (MAAS_API_KEY w) = true /\
   net_calls_of (trace w) = []) \/
  exists url api_key,
    Configured w url api_key /\
    net_calls_of (trace w) =
      match connect w url api_key with
      | inl _ => [CallConnect url api_key]
      | inr c =>
          match users_list c with
          | inl _ => [CallConnect url api_key; CallUsersList]
          | inr _ => [CallConnect url api_key; CallUsersList; CallMachinesList]
          end
      end.
Proof.
  unfold trace, run.
  destruct (configured_or_not w) as [F | (url & key & Hc)].
  - left. split; [exact F|]. now rewrite (main_not_configured w F).
  - right. exists url, key. split; [exact Hc|].
    destruct (configured_cases w url key Hc) as
      [(e & E1 & M) | [(c & e & E1 & E2 & M)
         | [(c & u & e & E1 & E2 & E3 & M) | (c & u & ms & E1 & E2 & E3 & M)]]];
      rewrite M, E1; try rewrite E2; try reflexivity.
    cbn [fst]. rewrite !net_calls_of_app, net_calls_of_map. reflexivity.
Qed.

(** X3: a run ends in one of two ways.  Either [main] returns, the
    status is 0 and nothing went to the error stream; or [main] exits with
    status 1 after exactly one line on the error stream, an "Error" line,
    and without any line of a report on standard output.  No exception
    leaves [main]. *)
Theorem run_ends_clean_or_with_one_error (w : world) :
  (snd (main w) = Returned tt /\ exit_code w = 0 /\
   stderr_of (trace w) = []) \/
  (snd (main w) = Exited 1 /\ exit_code w = 1 /\
   (exists line, stderr_of (trace w) = [line] /\ error_line line = true) /\
   filter not_progress (stdout_of (trace w)) = []).
Proof.
  unfold exit_code, trace, run.
  destruct (configured_or_not w) as [F | (url & key & Hc)].
  - right. rewrite (main_not_configured w F). cbn.
    repeat split. exists msg_not_set. split; reflexivity.
  - destruct (configured_cases w url key Hc) as
      [(e & _ & M) | [(c & e & _ & _ & M)
         | [(c & u & e & _ & _ & _ & M) | (c & u & ms & _ & _ & _ & M)]]];
      rewrite M.
    + right. cbn. repeat split. eexists. split; reflexivity.
    + right. cbn. repeat split. eexists. split; reflexivity.
    + right. cbn. repeat split. eexists. split; reflexivity.
    + left. cbn [fst snd]. repeat split.
      rewrite !stderr_of_app, stderr_of_map. reflexivity.
Qed.

(** X4: the closing progress line is on standard output exactly when the
    status is 0. *)
Theorem completion_line_iff_success (w : world) :
  In msg_complete (stdout_of (trace w)) <-> exit_code w = 0.
Proof.
  unfold exit_code, trace, run.
  destruct (configured_or_not w) as [F | (url & key & Hc)].
  - rewrite (main_not_configured w F). cbn. split; [intros [] | discriminate].
  - destruct (configured_cases w url key Hc) as
      [(e & _ & M) | [(c & e & _ & _ & M)
         | [(c & u & e & _ & _ & _ & M) | (c & u & ms & _ & _ & _ & M)]]];
      rewrite M; cbn [fst snd].
    + cbn. split; [|discriminate]. intros [H|[]]. discriminate H.
    + cbn. split; [|discriminate]. intros [H|[]]. discriminate H.
    + cbn. split; [|discriminate]. intros [H|[H|[H|[]]]]; discriminate H.
    + split; [reflexivity|]. intros _.
      rewrite !stdout_of_app, !in_app_iff. right. right. now left.
Qed.

(** X5: a run in which the connection, the probe and the fetch all
    answer does, in this order: the connecting line, the [connect] call,
    the user list call, the connected line, the fetching line, the machine
    list call, the line with the number of machines fetched, the report
    of exactly those machines, the closing line; its status is 0. *)
Theorem successful_run (w : world) (url api_key : string) (c : client)
    (u : unit) (ms : list machine) :
  Configured w url api_key -> connect w url api_key = inr c ->
  users_list c = inr u -> machines_list c = inr ms ->
  run w =
    (([Stdout ("--> Connecting to MaaS at " ++ url ++ "...");
       Net (CallConnect url api_key); Net CallUsersList;
       Stdout "--> Successfully connected to MaaS.";
       Stdout msg_fetching; Net CallMachinesList;
       Stdout ("--> Found " ++ PyStr.str_of_nat (List.length ms) ++
               " total machines.")] ++
      map Stdout (report_lines ms) ++
      [Stdout "--> Report generation complete."])%list, 0).
Proof.
  intros Hc Hconn Hu Hm. unfold run.
  now rewrite (main_succeeds w url api_key c u ms Hc Hconn Hu Hm).
Qed.

Lemma successful_run_witness :
  stdout_of (fst (run (Sample.with_client Sample.empty_client))) =
  (["--> Connecting to MaaS at http://maas:5240/MAAS...";
    "--> Successfully connected to MaaS."; msg_fetching;
    "--> Found 0 total machines."] ++
   report_lines [] ++ ["--> Report generation complete."])%list.
Proof.
  rewrite (successful_run (Sample.with_client Sample.empty_client)
             "http://maas:5240/MAAS" "a:b:c" Sample.empty_client tt []).
  - reflexivity.
  - repeat split; discriminate.
  - reflexivity.
  - reflexivity.
  - reflexivity.
Defined.

(** X6: [get_maas_client], whatever it is given, never lets an exception
    out.  It returns only when both values are non-empty, [connect]
    answered and the user list call on that answer succeeded, and then it
    returns that very client; in every other case it exits with
    status 1. *)
Theorem get_maas_client_outcome (w : world) (url api_key : option string) :
  match snd (get_maas_client w url api_key) with
  | Returned c =>
      falsy url = false /\ falsy api_key = false /\
      connect w (fmt_opt url) (fmt_opt api_key) = inr c /\
      exists u, users_list c = inr u
  | Exited code => code = 1
  | Raised _ => False
  end.
Proof.
  unfold get_maas_client.
  destruct (falsy url) eqn:Fu; [reflexivity|].
  destruct (falsy api_key) eqn:Fk; [reflexivity|].
  cbn [orb]. cbv [bind print net try_except ret sys_exit print_err].
  destruct (connect w (fmt_opt url) (fmt_opt api_key)) as [e|c]; [reflexivity|].
  destruct (users_list c) as [e|u] eqn:Eu; [reflexivity|].
  cbn. repeat split. now exists u.
Qed.

(** ** Further properties of the classifier *)

(** X7: each of the three lists is the input with the machines that do
    not belong to it taken out: members come from the input, in the order
    and as many times as they stand there. *)
Theorem lists_are_filters_of_the_input (machines : list machine) :
  available_servers (classify machines) = filter goes_available machines /\
  potential_issue_servers (classify machines) =
    filter goes_potential_issue machines /\
  failed_servers (classify machines) = filter goes_failed machines.
Proof.
  exact (fold_classify machines no_categories).
Qed.

(** X8: classifying two inventories put one after the other gives, list
    by list, the first result followed by the second. *)
Theorem classify_app (ms1 ms2 : list machine) :
  available_servers (classify (ms1 ++ ms2)) =
    (available_servers (classify ms1) ++ available_servers (classify ms2))%list /\
  potential_issue_servers (classify (ms1 ++ ms2)) =
    (potential_issue_servers (classify ms1) ++
     potential_issue_servers (classify ms2))%list /\
  failed_servers (classify (ms1 ++ ms2)) =
    (failed_servers (classify ms1) ++ failed_servers (classify ms2))%list.
Proof.
  rewrite !classify_available, !classify_potential_issue, !classify_failed,
    !filter_app.
  repeat split.
Qed.

(** X9: a machine whose status is exactly "Ready" but which has no tag
    that lowers to "available" and no tag starting with "DCOPS-" is in none
    of the three lists. *)
Theorem untagged_ready_is_dropped (machines : list machine) (m : machine) :
  status_name m = "Ready" ->
  ~ In "available" (map PyStr.lower (tags m)) ->
  (forall tag, In tag (tags m) -> ~ StartsWithCI "DCOPS-" tag) ->
  ~ In m (available_servers (classify machines)) /\
  ~ In m (potential_issue_servers (classify machines)) /\
  ~ In m (failed_servers (classify machines)).
Proof.
  intros Hr Ha Hd.
  rewrite in_available_iff, in_potential_issue_iff, in_failed_iff.
  unfold goes_available, goes_potential_issue, goes_failed.
  rewrite (ready_not_failed m Hr), Hr, String.eqb_refl. cbn [negb andb].
  repeat split.
  - intros [_ H]. apply Ha. now apply mem_spec.
  - intros [_ H]. apply existsb_exists in H. destruct H as [tag [Ht Hm]].
    apply (Hd tag Ht). now apply dcops_match_spec.
  - intros [_ H]. discriminate H.
Qed.

Lemma untagged_ready_is_dropped_witness :
  ~ In Fixture.spare (available_servers (classify Fixture.shelf)) /\
  ~ In Fixture.spare (potential_issue_servers (classify Fixture.shelf)) /\
  ~ In Fixture.spare (failed_servers (classify Fixture.shelf)).
Proof.
  apply (untagged_ready_is_dropped Fixture.shelf Fixture.spare).
  - reflexivity.
  - simpl. intros [H|[H|[]]]; discriminate H.
  - intros tag Ht H. apply dcops_match_spec in H.
    simpl in Ht. destruct Ht as [<-|[<-|[]]]; discriminate H.
Defined.

(** ** Further properties of the report *)

Section ReportFacts.

Lemma in_section_lines_iff (s : string) (entries : list machine)
    (line : machine -> string) (none_found : string) :
  In s (section_lines entries line none_found) <->
  (entries = [] /\ s = none_found) \/
  (exists m, In m entries /\ s = line m).
Proof.
  destruct entries as [|x t]; cbn [section_lines].
  - split.
    + intros [H|[]]. left. split; [reflexivity | now symmetry].
    + intros [[_ ->] | [m [[] _]]]. now left.
  - rewrite in_map_iff. split.
    + intros [m [E H]]. right. exists m. split; [exact H | now symmetry].
    + intros [[E _] | [m [H ->]]]; [discriminate E|]. now exists m.
Qed.

Lemma length_section_lines (entries : list machine)
    (line : machine -> string) (none_found : string) :
  List.length (section_lines entries line none_found) =
  Nat.max 1 (List.length entries).
Proof.
  destruct entries as [|x t]; cbn [section_lines]; [reflexivity|].
  rewrite length_map. cbn [List.length]. lia.
Qed.

Lemma length_ljust (w : nat) (s : string) :
  String.length (PyStr.ljust w s) = Nat.max w (String.length s).
Proof. apply ljust_padded. Qed.

Lemma in_sorted_iff (m : machine) (l : list machine) :
  In m (sorted_by_hostname l) <-> In m l.
Proof.
  split; apply Permutation_in; [|symmetry]; apply sorted_perm.
Qed.

End ReportFacts.

(** X10: every machine put in a list has its line in the section of that
    list: a failed or broken machine its Failed line, a "Ready" machine
    with the "available" tag its line in the Available section, a "Ready"
    machine with a "DCOPS-" tag its line in the Potential-Issue section. *)
Theorem listed_machines_are_printed (machines : list machine) (m : machine) :
  In m machines ->
  (FailedStatus m ->
   In (failed_line m)
      (section_lines (failed_entries machines) failed_line none_failed)) /\
  (status_name m = "Ready" ->
   In "available" (map PyStr.lower (tags m)) ->
   In (server_line m)
      (section_lines (available_entries machines) server_line
                     none_available)) /\
  (status_name m = "Ready" ->
   (exists tag, In tag (tags m) /\ StartsWithCI "DCOPS-" tag) ->
   In (server_line m)
      (section_lines (potential_issue_entries machines) server_line
                     none_potential_issue)).
Proof.
  intros Hin.
  unfold failed_entries, available_entries, potential_issue_entries.
  split; [|split].
  - intros Hf. apply in_section_lines_iff. right. exists m.
    split; [|reflexivity]. apply in_sorted_iff, in_failed_iff.
    split; [exact Hin|]. now apply is_failed_status_spec.
  - intros Hr Ha. apply in_section_lines_iff. right. exists m.
    split; [|reflexivity]. apply in_sorted_iff, in_available_iff.
    split; [exact Hin|]. unfold goes_available.
    rewrite (ready_not_failed m Hr), Hr, String.eqb_refl. cbn [negb andb].
    now apply mem_spec.
  - intros Hr [tag [Ht Hd]]. apply in_section_lines_iff. right. exists m.
    split; [|reflexivity]. apply in_sorted_iff, in_potential_issue_iff.
    split; [exact Hin|]. unfold goes_potential_issue.
    rewrite (ready_not_failed m Hr), Hr, String.eqb_refl. cbn [negb andb].
    apply existsb_exists. exists tag. split; [exact Ht|].
    now apply dcops_match_spec.
Qed.

Lemma listed_machines_are_printed_witness :
  In (failed_line Fixture.dead)
     (section_lines (failed_entries Fixture.shelf) failed_line none_failed) /\
  In (server_line Sample.srv_a)
     (section_lines (available_entries Fixture.shelf) server_line
                    none_available) /\
  In (server_line Sample.srv_a)
     (section_lines (potential_issue_entries Fixture.shelf) server_line
                    none_potential_issue).
Proof.
  split; [|split].
  - apply (listed_machines_are_printed Fixture.shelf Fixture.dead).
    + simpl. tauto.
    + right. apply contains_spec. reflexivity.
  - apply (listed_machines_are_printed Fixture.shelf Sample.srv_a).
    + simpl. tauto.
    + reflexivity.
    + simpl. tauto.
  - apply (listed_machines_are_printed Fixture.shelf Sample.srv_a).
    + simpl. tauto.
    + reflexivity.
    + exists "DCOPS-1". split; [simpl; tauto|].
      exists "DCOPS-", "1". split; reflexivity.
Defined.

Section NoneFound.

Lemma server_line_not_none (m : machine) (s : string) :
  PyStr.startswith "  N" s = true -> s <> server_line m.
Proof. intros H ->. discriminate H. Qed.

Lemma failed_line_not_none (m : machine) (s : string) :
  PyStr.startswith "  N" s = true -> s <> failed_line m.
Proof. intros H ->. discriminate H. Qed.

Lemma entries_nil_iff (l : list machine) (s : string)
    (line : machine -> string) (none_found : string) :
  (forall m, s <> line m) ->
  (In s (section_lines (sorted_by_hostname l) line none_found) <->
   l = [] /\ s = none_found).
Proof.
  intros Hl. rewrite in_section_lines_iff, sorted_nil_iff. split.
  - intros [H | [m [_ E]]]; [exact H | now destruct (Hl m)].
  - intros H. now left.
Qed.

End NoneFound.

(** X11: each "none found" sentence is printed exactly when the list of
    its section is empty. *)
Theorem none_found_iff_empty (machines : list machine) :
  (In none_available (report_lines machines) <->
   available_servers (classify machines) = []) /\
  (In none_potential_issue (report_lines machines) <->
   potential_issue_servers (classify machines) = []) /\
  (In none_failed (report_lines machines) <->
   failed_servers (classify machines) = []).
Proof.
  unfold report_lines, available_entries, potential_issue_entries,
    failed_entries.
  split; [|split]; rewrite !in_app_iff;
    rewrite !entries_nil_iff
      by (intros m; first [apply server_line_not_none
                          | apply failed_line_not_none]; reflexivity);
    cbn [In]; split;
    try (intros H; decompose [or and] H; clear H;
         try assumption; try contradiction; discriminate);
    intros E; rewrite E; tauto.
Qed.

(** X12: the report has fifteen framing lines and, for each section, one
    line per machine of its list, or the one "none found" line when the
    list is empty. *)
Theorem report_line_count (machines : list machine) :
  List.length (stdout_of (fst (generate_report machines))) =
  15 + Nat.max 1 (List.length (available_servers (classify machines)))
     + Nat.max 1 (List.length (potential_issue_servers (classify machines)))
     + Nat.max 1 (List.length (failed_servers (classify machines))).
Proof.
  rewrite generate_report_spec. cbn [fst]. rewrite stdout_of_map.
  unfold report_lines, available_entries, potential_issue_entries,
    failed_entries.
  rewrite !length_app, !length_section_lines,
    !(Permutation_length (sorted_perm _)).
  cbn [List.length]. lia.
Qed.

(** X13: the length of a line is the length of its fixed text plus, for
    each padded field, the field's width or the value's own length when
    that is larger, plus the length of what follows: the tags for an
    Available or Potential-Issue line, the message part for a Failed
    line. *)
Theorem line_lengths (m : machine) :
  String.length (server_line m) =
    37 + Nat.max 25 (String.length (hostname m))
       + Nat.max 12 (String.length (system_id m))
       + Nat.max 15 (String.length (owner_name m))
       + String.length (PyRepr.repr_list (tags m)) /\
  String.length (failed_line m) =
    32 + Nat.max 25 (String.length (hostname m))
       + Nat.max 12 (String.length (system_id m))
       + Nat.max 20 (String.length (status_name m))
       + String.length (status_msg m).
Proof.
  unfold server_line, failed_line.
  rewrite !length_append, !length_ljust. cbn [String.length]. lia.
Qed.

(** ** The report and the order of the input *)

Section InputOrder.

Lemma filter_perm {A} (f : A -> bool) (l l' : list A) :
  Permutation l l' -> Permutation (filter f l) (filter f l').
Proof.
  induction 1 as [|x l l' _ IH|x y l|l l' l'' _ IH1 _ IH2]; cbn [filter].
  - constructor.
  - destruct (f x); [now constructor | exact IH].
  - destruct (f x), (f y); try reflexivity. apply perm_swap.
  - now transitivity (filter f l').
Qed.

Lemma hostnames_filter_nodup (f : machine -> bool) (l : list machine) :
  NoDup (map hostname l) -> NoDup (map hostname (filter f l)).
Proof.
  induction l as [|x t IH]; cbn [filter map]; [trivial|].
  intros H. apply NoDup_cons_iff in H. destruct H as [Hx Ht].
  destruct (f x); [|now apply IH].
  cbn [map]. constructor; [|now apply IH].
  intros Hin. apply Hx. apply in_map_iff in Hin.
  destruct Hin as [y [E Hy]]. apply filter_In in Hy.
  apply in_map_iff. exists y. tauto.
Qed.

Lemma hostname_decides (l : list machine) (a b : machine) :
  NoDup (map hostname l) -> In a l -> In b l ->
  hostname a = hostname b -> a = b.
Proof.
  induction l as [|x t IH]; cbn [map]; [intros _ []|].
  intros H Ha Hb E. apply NoDup_cons_iff in H. destruct H as [Hx Ht].
  destruct Ha as [<-|Ha], Hb as [<-|Hb].
  - reflexivity.
  - exfalso. apply Hx. rewrite E. now apply in_map.
  - exfalso. apply Hx. rewrite <- E. now apply in_map.
  - now apply IH.
Qed.

Lemma sorted_lists_agree (a b : list machine) :
  StronglySorted hostname_le a -> StronglySorted hostname_le b ->
  Permutation a b -> NoDup (map hostname a) -> a = b.
Proof.
  intros Sa. revert b.
  induction Sa as [|x a' Sa' IH Hx]; intros b Sb P N.
  - apply Permutation_nil in P. now subst.
  - destruct b as [|y b'].
    { symmetry in P. apply Permutation_nil in P. discriminate P. }
    apply StronglySorted_inv in Sb. destruct Sb as [Sb' Hy].
    rewrite Forall_forall in Hx, Hy.
    assert (E : x = y).
    { apply (hostname_decides (x :: a') x y N); [now left| |].
      - apply (Permutation_in y (Permutation_sym P)). now left.
      - apply String.leb_antisym.
        + assert (Hin : In y (x :: a'))
            by (apply (Permutation_in y (Permutation_sym P)); now left).
          destruct Hin as [<-|Hin]; [|now apply Hx].
          destruct (String.leb_total (hostname x) (hostname x)); assumption.
        + assert (Hin : In x (y :: b'))
            by (apply (Permutation_in x P); now left).
          destruct Hin as [<-|Hin]; [|now apply Hy].
          destruct (String.leb_total (hostname y) (hostname y)); assumption. }
    subst y. f_equal. apply IH.
    + exact Sb'.
    + now apply Permutation_cons_inv with (a := x).
    + cbn [map] in N. now apply NoDup_cons_iff in N.
Qed.

Lemma sorted_of_permutation (l l' : list machine) :
  Permutation l l' -> NoDup (map hostname l) ->
  sorted_by_hostname l = sorted_by_hostname l'.
Proof.
  intros P N. apply sorted_lists_agree.
  - apply sorted_sorted.
  - apply sorted_sorted.
  - rewrite (sorted_perm l), (sorted_perm l'). exact P.
  - apply (Permutation_NoDup (l := map hostname l)); [|exact N].
    apply Permutation_map. symmetry. apply sorted_perm.
Qed.

End InputOrder.

(** X14: when no two machines of the inventory share a hostname, the
    report does not depend on the order in which the machines arrive:
    any rearrangement of the input prints the same lines. *)
Theorem report_ignores_input_order (ms ms' : list machine) :
  Permutation ms ms' -> NoDup (map hostname ms) ->
  generate_report ms = generate_report ms'.
Proof.
  intros P N. rewrite !generate_report_spec. do 2 f_equal.
  unfold report_lines, available_entries, potential_issue_entries,
    failed_entries.
  rewrite !classify_available, !classify_potential_issue, !classify_failed.
  rewrite (sorted_of_permutation (filter goes_available ms)
             (filter goes_available ms')),
          (sorted_of_permutation (filter goes_potential_issue ms)
             (filter goes_potential_issue ms')),
          (sorted_of_permutation (filter goes_failed ms)
             (filter goes_failed ms'));
    try reflexivity;
    try (now apply filter_perm); now apply hostnames_filter_nodup.
Qed.

Lemma report_ignores_input_order_witness :
  generate_report Fixture.shelf = generate_report Fixture.shelf_shuffled.
Proof.
  apply (report_ignores_input_order Fixture.shelf Fixture.shelf_shuffled).
  - unfold Fixture.shelf, Fixture.shelf_shuffled.
    apply Permutation_sym.
    apply (Permutation_cons_app [Sample.srv_b; Fixture.dead; Sample.srv_a] []).
    apply (Permutation_cons_app [Sample.srv_b; Fixture.dead] []).
    apply perm_skip. apply perm_skip. apply perm_nil.
  - simpl. repeat constructor; simpl; intuition discriminate.
Defined.
